(** * Kaml: identity registry, sanitisation, leaderboard and rating queries

    A shallow embedding of the rating bot's core ([player.py],
    [save_and_load.py], [kamlbot.py]) and the properties of its
    specification.

    Conventions.
    - A Python [str] is a [string]; every [ascii] stands for one character.
    - A Python [int] is a [Z].
    - A [dict] is a [gmap], a [set] a [gset].  [None] is a legal dictionary
      key in Python, so the alias table is keyed by [option string].
    - Methods that read or write the registry run in the monad [M]: a state
      transformer that returns either a value or a raised exception, and in
      both cases the state reached so far (a Python exception does not roll
      back the writes made before it).
    - Ratings are IEEE doubles in the program.  The development is
      parametric in the number type and its operations (class [Numeric]),
      so every statement holds for whatever arithmetic is plugged in. *)

From stdpp Require Import base gmap sets list strings.
From Stdlib Require Import ZArith Ascii Lia.

Open Scope string_scope.
Open Scope Z_scope.

(** ** Python exceptions and outcomes *)

(** The identifier handed to [get_player]: an [int] id or a [str]. *)
Inductive alias_arg : Type :=
| AInt (player_id : Z)
| AStr (name : string).

Inductive exn : Type :=
| KeyError
| IndexError
| ValueError
| ZeroDivisionError
| PlayerNotFoundError (player_id : alias_arg).

Inductive outcome (A : Type) : Type :=
| Val (a : A)
| Exc (e : exn).
Arguments Val {A} a.
Arguments Exc {A} e.

(** ** Text helpers ([save_and_load.py]) *)

Definition newline : ascii := "010"%char.

(** [str.isspace] on one character (code points below 256). *)
Definition is_space (c : ascii) : bool :=
  let n := nat_of_ascii c in
  ((9 <=? n) && (n <=? 13) || (28 <=? n) && (n <=? 32)
   || (n =? 133) || (n =? 160))%nat.

Fixpoint lstrip (s : string) : string :=
  match s with
  | String c r => if is_space c then lstrip r else s
  | EmptyString => EmptyString
  end.

Fixpoint rstrip (s : string) : string :=
  match s with
  | EmptyString => EmptyString
  | String c r =>
      match rstrip r with
      | EmptyString => if is_space c then EmptyString else String c EmptyString
      | r' => String c r'
      end
  end.

(** [s.strip()] *)
Definition strip (s : string) : string := rstrip (lstrip s).

(** [s.replace(old, new)] for one-character [old] and [new]. *)
Fixpoint replace (old new : ascii) (s : string) : string :=
  match s with
  | EmptyString => EmptyString
  | String c r =>
      String (if Ascii.eqb c old then new else c) (replace old new r)
  end.

(** [clean_name(s)]: [s.strip().replace(",", "_").replace("\n", " ")] *)
Definition clean_name (s : string) : string :=
  replace newline " " (replace "," "_" (strip s)).

(** The characters that separate fields and records in the saved files. *)
Definition is_separator (c : ascii) : bool :=
  Ascii.eqb c "," || Ascii.eqb c newline.

Fixpoint has_separator (s : string) : bool :=
  match s with
  | EmptyString => false
  | String c r => is_separator c || has_separator r
  end.

(** Whether the character [c] occurs in [s]. *)
Fixpoint contains (c : ascii) (s : string) : bool :=
  match s with
  | EmptyString => false
  | String d r => Ascii.eqb d c || contains c r
  end.

(** The longest [p] with [s = p ++ ">" ++ _]: what a greedy match of any
    characters followed by [>] keeps. *)
Fixpoint upto_last_gt (s : string) : option string :=
  match s with
  | EmptyString => None
  | String c r =>
      match upto_last_gt r with
      | Some p => Some (String c p)
      | None => if Ascii.eqb c ">" then Some EmptyString else None
      end
  end.

(** The part of [s] before its first newline: [.] does not match a newline. *)
Fixpoint first_line (s : string) : string :=
  match s with
  | EmptyString => EmptyString
  | String c r => if Ascii.eqb c newline then EmptyString else String c (first_line r)
  end.

(** [re.match(MENTION_PATTERN, s)] with [MENTION_PATTERN = "<@(.+)>"]:
    the captured group, or [None] when the pattern does not match at the
    start of [s]. *)
Definition match_mention (s : string) : option string :=
  match s with
  | String "<" (String "@" rest) =>
      match first_line rest with
      | String c r => String c <$> upto_last_gt r
      | EmptyString => None
      end
  | _ => None
  end.

Definition is_digit (c : ascii) : bool :=
  let n := nat_of_ascii c in ((48 <=? n) && (n <=? 57))%nat.

Definition digit_val (c : ascii) : Z := Z.of_nat (nat_of_ascii c) - 48.

(** Decimal digits, single underscores allowed between two digits. *)
Fixpoint digits_val (acc : Z) (after_digit : bool) (s : string) : option Z :=
  match s with
  | EmptyString => if after_digit then Some acc else None
  | String c r =>
      if is_digit c then digits_val (10 * acc + digit_val c) true r
      else if Ascii.eqb c "_" && after_digit then digits_val acc false r
      else None
  end.

(** The built-in [int(s)] on a string of ASCII characters: surrounding
    white space, an optional sign, decimal digits.  [None] stands for
    [ValueError]. *)
Definition py_int (s : string) : option Z :=
  match strip s with
  | String "-" r => Z.opp <$> digits_val 0 false r
  | String "+" r => digits_val 0 false r
  | r => digits_val 0 false r
  end.

(** [parse_mention_to_id(mention)] *)
Definition parse_mention_to_id (mention : string) : outcome (option Z) :=
  match match_mention mention with
  | None => Val None
  | Some g =>
      match py_int g with
      | Some n => Val (Some n)
      | None => Exc ValueError
      end
  end.

(** ** Python sequence slicing *)

(** [l[start:stop]] on a sequence: negative indices count from the end and
    every index is clamped to the sequence, so no index is out of range. *)
Definition slice_index (n i : Z) : Z :=
  if i <? 0 then Z.max (i + n) 0 else Z.min i n.

Definition py_slice {A : Type} (l : list A) (start stop : Z) : list A :=
  let n := Z.of_nat (length l) in
  let lo := slice_index n start in
  let hi := slice_index n stop in
  take (Z.to_nat (hi - lo)) (drop (Z.to_nat lo) l).

Example clean_name_ex : clean_name "  a,b  " = "a_b".
Proof. reflexivity. Qed.

Example parse_mention_ex :
  parse_mention_to_id "<@123>" = Val (Some 123)
  /\ parse_mention_to_id "Alice" = Val None
  /\ parse_mention_to_id "<@!123>" = Exc ValueError.
Proof. repeat split. Qed.

Example py_slice_ex :
  py_slice [1; 2; 3; 4; 5] 0 3 = [1; 2; 3]
  /\ py_slice [1; 2; 3; 4; 5] (-2) 10 = [4; 5]
  /\ py_slice [1; 2; 3; 4; 5] 9 20 = [].
Proof. repeat split. Qed.

(** ** Numbers *)

(** The arithmetic the rating code runs on.  [of_int] is the conversion of
    an [int] to a float, [true_div] is [/] between two [int]s (the divisor
    is known to be non-zero where it is used), [cdf] the standard normal
    cumulative distribution.  [env_mu], [env_sigma] and [env_beta] are the
    constants of the [trueskill] environment in force. *)
Class Numeric (num : Type) := {
  num_eq_dec :: EqDecision num;
  of_int : Z -> num;
  add : num -> num -> num;
  sub : num -> num -> num;
  mul : num -> num -> num;
  div : num -> num -> num;
  sqrt : num -> num;
  true_div : Z -> Z -> num;
  cdf : num -> num;
  env_mu : num;
  env_sigma : num;
  env_beta : num;
}.

(** [trueskill.Rating] *)
Module Rating.
Section Rating.
Context {num : Type} `{!Numeric num}.

Record t := { mu : num; sigma : num }.

(** [trueskill.Rating()]: the prior of the environment. *)
Definition default : t := {| mu := env_mu; sigma := env_sigma |}.
End Rating.
Arguments t num : clear implicits.
End Rating.

(** [PlayerState = namedtuple("PlayerState", ["rank", "mu", "sigma", "score"])] *)
Module PlayerState.
Section PlayerState.
Context {num : Type}.

Record t := { rank : option Z; mu : num; sigma : num; score : num }.
End PlayerState.
Arguments t num : clear implicits.
End PlayerState.

(** ** [OrderedDict] *)

(** [d[k] = v] on an [OrderedDict] held as its list of items: a key that is
    present keeps its place, a new key goes to the end. *)
Fixpoint od_set {K V : Type} `{EqDecision K} (k : K) (v : V)
    (d : list (K * V)) : list (K * V) :=
  match d with
  | [] => [(k, v)]
  | (k', v') :: r =>
      if decide (k' = k) then (k, v) :: r else (k', v') :: od_set k v r
  end.

(** [d.values()] *)
Definition od_values {K V : Type} (d : list (K * V)) : list V := d.*2.

(** ** class [Player] *)

Module Player.
Section Player.
Context {num : Type} `{!Numeric num}.

Record t := {
  aliases : gset string;
  id : Z;
  mention : string;
  claimed : bool;
  rating : Rating.t num;
  states : list (num * PlayerState.t num);
  wins : Z;
  losses : Z;
  rank : option Z;
}.

(** [Player.__init__(self, player_id=None, aliases=None, name=None)],
    in the two shapes the program calls it: by [name] (then the other two
    arguments are not read), or by [player_id] and [aliases].  The class
    counter [Player._id_counter] is passed in and out.  [wins], [losses]
    and [rank] are the class defaults. *)
Definition init (player_id : Z) (aliases : list string)
    (name : option string) (_id_counter : Z) : outcome t * Z :=
  match name with
  | Some name =>
      (Val {| aliases := {[ name ]};
              id := _id_counter;
              mention := name;
              claimed := false;
              rating := Rating.default;
              states := [];
              wins := 0; losses := 0; rank := None |},
       _id_counter + 1)
  | None =>
      match aliases with
      | first :: _ =>
          (Val {| aliases := list_to_set aliases;
                  id := player_id;
                  mention := first;
                  claimed := true;
                  rating := Rating.default;
                  states := [];
                  wins := 0; losses := 0; rank := None |},
           _id_counter)
      | [] => (Exc IndexError, _id_counter)
      end
  end.

Definition mu (self : t) : num := Rating.mu (rating self).

Definition sigma (self : t) : num := Rating.sigma (rating self).

(** [self.mu - 3*self.sigma] *)
Definition score (self : t) : num :=
  sub (mu self) (mul (of_int 3) (sigma self)).

(** [[s.score for s in self.states.values()] + [self.score]] *)
Definition scores (self : t) : list num :=
  (PlayerState.score <$> od_values (states self)) ++ [score self].

Definition total_games (self : t) : Z := wins self + losses self.

(** [self.wins/self.total_games]: dividing by zero raises. *)
Definition win_ratio (self : t) : outcome num :=
  if total_games self =? 0 then Exc ZeroDivisionError
  else Val (true_div (wins self) (total_games self)).

Definition set_states (d : list (num * PlayerState.t num)) (self : t) : t :=
  {| aliases := aliases self; id := id self; mention := mention self;
     claimed := claimed self; rating := rating self; states := d;
     wins := wins self; losses := losses self; rank := rank self |}.

Definition set_aliases (s : gset string) (self : t) : t :=
  {| aliases := s; id := id self; mention := mention self;
     claimed := claimed self; rating := rating self; states := states self;
     wins := wins self; losses := losses self; rank := rank self |}.

Definition set_rating (r : Rating.t num) (self : t) : t :=
  {| aliases := aliases self; id := id self; mention := mention self;
     claimed := claimed self; rating := r; states := states self;
     wins := wins self; losses := losses self; rank := rank self |}.

Definition set_record (w l : Z) (k : option Z) (self : t) : t :=
  {| aliases := aliases self; id := id self; mention := mention self;
     claimed := claimed self; rating := rating self; states := states self;
     wins := w; losses := l; rank := k |}.

(** [save_state(self, timestamp, rank)]; [timestamp] is the value of
    [float(timestamp)]. *)
Definition save_state (timestamp : num) (rank : option Z) (self : t) : t :=
  set_states
    (od_set timestamp
       {| PlayerState.rank := rank;
          PlayerState.mu := mu self;
          PlayerState.sigma := sigma self;
          PlayerState.score := score self |}
       (states self))
    self.

End Player.
Arguments t num : clear implicits.
End Player.

(** ** The registry state and the monad of its methods *)

Section World.
Context {num : Type} `{!Numeric num}.

(** The two dictionaries of a [PlayerManager] and the class counter
    [Player._id_counter] that [Player.__init__] reads and bumps. *)
Record World := {
  alias_to_id : gmap (option string) Z;
  id_to_player : gmap Z (Player.t num);
  Player_id_counter : Z;
}.

(** [PlayerManager()] in a fresh process. *)
Definition empty_world : World :=
  {| alias_to_id := ∅; id_to_player := ∅; Player_id_counter := 0 |}.

Definition M (A : Type) : Type := World -> outcome A * World.

Definition ret {A : Type} (a : A) : M A := fun w => (Val a, w).

Definition raise {A : Type} (e : exn) : M A := fun w => (Exc e, w).

Definition bind {A B : Type} (m : M A) (f : A -> M B) : M B :=
  fun w =>
    match m w with
    | (Val a, w') => f a w'
    | (Exc e, w') => (Exc e, w')
    end.

Definition gets {A : Type} (f : World -> A) : M A := fun w => (Val (f w), w).

Definition modify (f : World -> World) : M unit := fun w => (Val tt, f w).

(** A pure computation that may raise. *)
Definition lift {A : Type} (o : outcome A) : M A := fun w => (o, w).

End World.
Arguments World num : clear implicits.
Arguments M num A : clear implicits.

#[global] Instance M_ret {num : Type} : MRet (M num) := fun A a => ret a.
#[global] Instance M_bind {num : Type} : MBind (M num) :=
  fun A B f m => bind m f.

(** [for x in l: body(x)] *)
Fixpoint for_each {num A : Type} (body : A -> M num unit) (l : list A)
    : M num unit :=
  match l with
  | [] => ret tt
  | x :: r => body x ;; for_each body r
  end.

(** ** class [PlayerManager] *)

Module PlayerManager.
Section PlayerManager.
Context {num : Type} `{!Numeric num}.

Definition set_alias_to_id (f : gmap (option string) Z -> gmap (option string) Z)
    (w : World num) : World num :=
  {| alias_to_id := f (alias_to_id w);
     id_to_player := id_to_player w;
     Player_id_counter := Player_id_counter w |}.

Definition set_id_to_player
    (f : gmap Z (Player.t num) -> gmap Z (Player.t num))
    (w : World num) : World num :=
  {| alias_to_id := alias_to_id w;
     id_to_player := f (id_to_player w);
     Player_id_counter := Player_id_counter w |}.

Definition set_counter (c : Z) (w : World num) : World num :=
  {| alias_to_id := alias_to_id w;
     id_to_player := id_to_player w;
     Player_id_counter := c |}.

(** [Player(...)] run against the class counter. *)
Definition new_player (player_id : Z) (aliases : list string)
    (name : option string) : M num (Player.t num) :=
  fun w =>
    let '(r, c) := Player.init player_id aliases name (Player_id_counter w) in
    (r, set_counter c w).

(** [alias in self.alias_to_id] *)
Definition alias_exists (w : World num) (alias : string) : bool :=
  bool_decide (is_Some (alias_to_id w !! Some alias)).

(** [player_id in self.id_to_player] *)
Definition id_exists (w : World num) (player_id : Z) : bool :=
  bool_decide (is_Some (id_to_player w !! player_id)).

(** [self.alias_to_id[alias]] *)
Definition alias_to_id_get (alias : string) : M num Z :=
  fun w =>
    match alias_to_id w !! Some alias with
    | Some i => (Val i, w)
    | None => (Exc KeyError, w)
    end.

(** [self.id_to_player[player_id]] *)
Definition id_to_player_get (player_id : Z) : M num (Player.t num) :=
  fun w =>
    match id_to_player w !! player_id with
    | Some p => (Val p, w)
    | None => (Exc KeyError, w)
    end.

(** [del self.id_to_player[player_id]] *)
Definition id_to_player_del (player_id : Z) : M num unit :=
  fun w =>
    match id_to_player w !! player_id with
    | Some _ => (Val tt, set_id_to_player (delete player_id) w)
    | None => (Exc KeyError, w)
    end.

(** Modelled from the spec: [utils.ChainedDict] is not among the sources.
    The spec's registry maps an alias to an id and an id to a player, so
    [self.alias_to_player[alias]] is the lookup of [alias] in
    [alias_to_id] followed by the lookup of the id in [id_to_player],
    each raising [KeyError] on a missing key. *)
Definition alias_to_player (alias : string) : M num (Player.t num) :=
  i ← alias_to_id_get alias;
  id_to_player_get i.

(** [list(self.id_to_player.values())] *)
Definition players (w : World num) : list (Player.t num) :=
  (map_to_list (id_to_player w)).*2.

(** [get_aliases(self, filter)] *)
Definition get_aliases (filter : Player.t num -> bool) (w : World num)
    : gset string :=
  ⋃ (Player.aliases <$> List.filter filter (players w)).

Definition aliases (w : World num) : gset string :=
  get_aliases (fun _ => true) w.

Definition claimed_aliases (w : World num) : gset string :=
  get_aliases Player.claimed w.

Definition claimed_players (w : World num) : list (Player.t num) :=
  List.filter Player.claimed (players w).

(** [alias in self.claimed_aliases] *)
Definition is_claimed (w : World num) (alias : string) : bool :=
  bool_decide (alias ∈ claimed_aliases w).

(** [add_player(self, name=None, player_id=None, aliases=None)].  The last
    assignment is [self.alias_to_id[name] = player_id] whatever [name]
    is: in a call by [player_id] and [aliases] the key is [None]. *)
Definition add_player (name : option string) (player_id : Z)
    (aliases : list string) : M num (Player.t num) :=
  player ← new_player player_id aliases name;
  let player_id := Player.id player in
  modify (set_id_to_player <[ player_id := player ]>) ;;
  modify (set_alias_to_id <[ name := player_id ]>) ;;
  ret player.

(** [associate_aliases(self, player_id, aliases)].  The closing call
    [save_aliases(self.id_to_claimed_aliases)] writes a file and does not
    touch the registry; it is left out. *)
Definition associate_aliases (player_id : Z) (aliases : list string)
    : M num (list string * list string) :=
  found ← gets (fun w => List.filter (alias_exists w) aliases);
  not_found ←
    gets (fun w => List.filter (fun a => negb (alias_exists w a)) aliases);
  known ← gets (fun w => id_exists w player_id);
  (if negb known then
     add_player None player_id aliases ;; ret tt
   else
     player ← id_to_player_get player_id;
     modify (set_id_to_player
               <[ player_id :=
                    Player.set_aliases
                      (Player.aliases player ∪ list_to_set aliases) player ]>))
  ;;
  for_each (fun alias =>
              past_id ← alias_to_id_get alias;
              id_to_player_del past_id) found ;;
  for_each (fun alias =>
              modify (set_alias_to_id <[ Some alias := player_id ]>)) aliases
  ;;
  ret (found, not_found).

(** [extract_claims(self, aliases)]: the dictionary built by the
    comprehension, from each claimed alias to its player. *)
Fixpoint extract_claims (aliases : list string)
    : M num (gmap string (Player.t num)) :=
  match aliases with
  | [] => ret ∅
  | alias :: rest =>
      claimed ← gets (fun w => is_claimed w alias);
      if (claimed : bool) then
        player ← alias_to_player alias;
        taken ← extract_claims rest;
        ret (<[ alias := player ]> taken)
      else extract_claims rest
  end.

(** [get_player(self, alias, test_mention=False, create_missing=True)] *)
Definition get_player (alias : alias_arg)
    (test_mention create_missing : bool) : M num (Player.t num) :=
  match alias with
  | AInt player_id =>
      known ← gets (fun w => id_exists w player_id);
      if negb known then raise (PlayerNotFoundError (AInt player_id))
      else id_to_player_get player_id
  | AStr name =>
      player_id ←
        (if test_mention then lift (parse_mention_to_id name) else ret None);
      match player_id with
      | Some player_id => id_to_player_get player_id
      | None =>
          known ← gets (fun w => alias_exists w name);
          if negb known then
            if create_missing then add_player (Some name) 0 []
            else raise (PlayerNotFoundError (AStr name))
          else alias_to_player name
      end
  end.
End PlayerManager.
End PlayerManager.


(** ** class [Ranking] *)

Module Ranking.
Section Ranking.
Context {num : Type} `{!Numeric num}.

(** Modelled from the spec: [ranking.py] is not among the sources.  The
    spec describes the ranking as the dense, 1-based order of the players
    that have played, best first.  It is held as that sequence of
    players: the player of rank [k] sits at index [k - 1], and indexing
    the ranking with a slice is Python's slice of the sequence. *)
Definition t : Type := list (Player.t num).

(** [self[start:stop]] *)
Definition getitem (self : t) (start stop : Z) : list (Player.t num) :=
  py_slice self start stop.

(** The 1-based rank of the player at index [i]. *)
Definition rank_of_index (i : nat) : Z := Z.of_nat i + 1.

(** [self.player_to_rank.get(player)]: the inverse of the sequence;
    players are told apart by their [id], which is their hash. *)
Definition player_to_rank (self : t) (player : Player.t num) : option Z :=
  (fun r => rank_of_index r.1) <$>
    list_find (fun p => Player.id p = Player.id player) self.

End Ranking.
Arguments t num : clear implicits.
End Ranking.

(** ** The bot and its commands ([kamlbot.py]) *)

Module Kamlbot.
Section Kamlbot.
Context {num : Type} `{!Numeric num}.

(** [tokens["jet_id"]], read from a file that is not among the sources. *)
Variable jet_id : Z.

(** The template [messages["leaderboard_line"]], filled with a rank (or
    the default of [player_rank]) and a player. *)
Variable leaderboard_line : option Z -> Player.t num -> string.

Definition JET_ALIASES : list string :=
  ["\#LegalizeEdgyMemes"; "JetEriksen"; "KSR JetEriksen"].

(** [self.ranking.player_to_rank.get(player, "[unkown]")] *)
Definition player_rank (ranking : Ranking.t num) (player : Player.t num)
    : option Z :=
  Ranking.player_to_rank ranking player.

(** The players [leaderboard_content(self, start, stop)] prints, one line
    each and in this order: [self.ranking[start:stop]] after the
    conversion of [start]. *)
Definition leaderboard_rows (ranking : Ranking.t num) (start stop : Z)
    : list (Player.t num) :=
  let start := if 0 <=? start then start - 1 else start in
  Ranking.getitem ranking start stop.

Fixpoint join (sep : string) (l : list string) : string :=
  match l with
  | [] => ""
  | [x] => x
  | x :: r => x +:+ sep +:+ join sep r
  end.

(** [leaderboard_content(self, start, stop)] *)
Definition leaderboard_content (ranking : Ranking.t num) (start stop : Z)
    : string :=
  let new_content :=
    join (String newline "")
      ((fun player => leaderboard_line (player_rank ranking player) player)
         <$> leaderboard_rows ranking start stop) in
  "```" +:+ String newline "" +:+ new_content +:+ String newline "" +:+ "```".

(** What the [alias] command has decided when it reaches the end of the
    modelled part. *)
Inductive alias_reply : Type :=
| AntiJetMeme
| NoAliasGiven
| NotAssociated (taken : gmap string (Player.t num))
| Associated (added not_found : list string).

(** The command [alias(cmd, *names)] issued by the user [user_id], up to
    and including the call of [associate_aliases].  What follows in the
    source refreshes the display names through the chat service and
    formats the reply. *)
Definition alias (user_id : Z) (names : list string) : M num alias_reply :=
  if (user_id =? jet_id)
     && existsb (fun name => negb (bool_decide (name ∈ JET_ALIASES))) names
  then ret AntiJetMeme
  else if (length names =? 0)%nat then ret NoAliasGiven
  else
    taken ← PlayerManager.extract_claims names;
    if (0 <? size taken)%nat then ret (NotAssociated taken)
    else
      r ← PlayerManager.associate_aliases user_id names;
      ret (Associated r.1 r.2).



End Kamlbot.
End Kamlbot.

(** * Specification predicates *)

Section Predicates.
Context {num : Type} `{!Numeric num}.

(** The registry invariant of the specification: every pair of the
    alias table leads to a stored player whose alias set holds the
    alias. *)
Definition registry_inv (w : World num) : Prop :=
  forall (alias : option string) (i : Z),
    alias_to_id w !! alias = Some i ->
    exists p, id_to_player w !! i = Some p
              /\ exists a, alias = Some a /\ a ∈ Player.aliases p.

(** The states a player object goes through: it is built by
    [Player.__init__], [save_state] records snapshots, and any other
    write (a new rating, a counted game, a rank, an alias, a display
    name) leaves the history alone. *)
Inductive lifetime : Player.t num -> Prop :=
| lifetime_init player_id aliases name c p c' :
    Player.init player_id aliases name c = (Val p, c') -> lifetime p
| lifetime_save timestamp rank p :
    lifetime p -> lifetime (Player.save_state timestamp rank p)
| lifetime_write p p' :
    lifetime p -> Player.states p' = Player.states p -> lifetime p'.

(** A snapshot whose score is the conservative score of its belief. *)
Definition snapshot_ok (s : PlayerState.t num) : Prop :=
  PlayerState.score s
  = sub (PlayerState.mu s) (mul (of_int 3) (PlayerState.sigma s)).


(** The owners, in the alias table, of the aliases of a batch that are
    already known. *)
Definition past_ids (w : World num) (aliases : list string) : list Z :=
  omap (fun a => alias_to_id w !! Some a) aliases.


(** The alias table once every alias of a batch is bound to [player_id]. *)
Definition bind_all (player_id : Z) (aliases : list string)
    (m : gmap (option string) Z) : gmap (option string) Z :=
  foldl (fun m a => <[ Some a := player_id ]> m) m aliases.

(** The player table once the players of [ids] are deleted. *)
Definition delete_all (ids : list Z) (m : gmap Z (Player.t num))
    : gmap Z (Player.t num) :=
  foldl (fun m i => delete i m) m ids.

(** The claiming player as [associate_aliases] leaves it before it
    deletes anything: the stored player with the batch added to its
    aliases, or a new claimed player made of the batch. *)
Definition claimant (w : World num) (player_id : Z) (aliases : list string)
    : option (Player.t num) :=
  match id_to_player w !! player_id with
  | Some p =>
      Some (Player.set_aliases (Player.aliases p ∪ list_to_set aliases) p)
  | None =>
      match Player.init player_id aliases None (Player_id_counter w) with
      | (Val p, _) => Some p
      | (Exc _, _) => None
      end
  end.
End Predicates.

(** * Concrete inputs *)

(** Integer arithmetic, enough to run the model on examples. *)
#[local] Instance Z_numeric : Numeric Z := {|
  of_int := fun n => n;
  add := Z.add; sub := Z.sub; mul := Z.mul; div := Z.div; sqrt := Z.sqrt;
  true_div := Z.div;
  cdf := fun x => x;
  env_mu := 25; env_sigma := 8; env_beta := 4;
|}.

(** The registry after [get_player("x")] on an empty one: the unclaimed
    player 0, whose only alias is ["x"]. *)
Definition world_x : World Z :=
  (PlayerManager.get_player (AStr "x") false true empty_world).2.

(** Then [associate_aliases(0, ["y"])]: player 0, still unclaimed, has
    the aliases ["x"] and ["y"]. *)
Definition world_xy : World Z :=
  (PlayerManager.associate_aliases 0 ["y"] world_x).2.

(** The registry after user 100 has claimed ["foo"]. *)
Definition world_foo : World Z :=
  (PlayerManager.associate_aliases 100 ["foo"] empty_world).2.

Definition player_x : Player.t Z :=
  {| Player.aliases := {[ "x" ]}; Player.id := 0; Player.mention := "x";
     Player.claimed := false; Player.rating := Rating.default;
     Player.states := []; Player.wins := 0; Player.losses := 0;
     Player.rank := None |}.

Definition player_foo : Player.t Z :=
  {| Player.aliases := list_to_set ["foo"]; Player.id := 100;
     Player.mention := "foo"; Player.claimed := true;
     Player.rating := Rating.default;
     Player.states := []; Player.wins := 0; Player.losses := 0;
     Player.rank := None |}.

(** A player with three wins and one loss. *)
Definition player_played : Player.t Z := Player.set_record 3 1 (Some 1) player_x.



(** * Properties *)

(** ** Sanitisation of names *)

Lemma has_separator_contains s :
  has_separator s = contains "," s || contains newline s.
Proof.
  induction s as [|d r IH]; simpl; [done|].
  rewrite IH. unfold is_separator.
  destruct (Ascii.eqb d ","), (Ascii.eqb d newline),
    (contains "," r), (contains newline r); reflexivity.
Qed.

Lemma replace_removes old new s :
  old <> new -> contains old (replace old new s) = false.
Proof.
  intros Hne. induction s as [|d r IH]; simpl; [done|].
  rewrite IH, orb_false_r.
  destruct (Ascii.eqb_spec d old) as [->|Hd].
  - apply Ascii.eqb_neq. congruence.
  - by apply Ascii.eqb_neq.
Qed.

Lemma replace_keeps_absent c old new s :
  c <> new -> contains c s = false -> contains c (replace old new s) = false.
Proof.
  intros Hne. induction s as [|d r IH]; simpl; [done|].
  intros [Hd Hr]%orb_false_iff. rewrite (IH Hr), orb_false_r.
  destruct (Ascii.eqb d old); [|done].
  apply Ascii.eqb_neq. congruence.
Qed.

Lemma replace_absent old new s :
  contains old s = false -> replace old new s = s.
Proof.
  induction s as [|d r IH]; simpl; [done|].
  intros [Hd Hr]%orb_false_iff. by rewrite Hd, (IH Hr).
Qed.

Lemma clean_name_no_separator s : has_separator (clean_name s) = false.
Proof.
  unfold clean_name. rewrite has_separator_contains.
  apply orb_false_iff. split.
  - apply replace_keeps_absent; [done|]. by apply replace_removes.
  - by apply replace_removes.
Qed.

Lemma clean_name_fixes_clean s :
  has_separator s = false -> strip s = s -> clean_name s = s.
Proof.
  rewrite has_separator_contains. intros [Hc Hn]%orb_false_iff Hs.
  unfold clean_name. rewrite Hs.
  rewrite (replace_absent "," "_" s Hc). by apply replace_absent.
Qed.

(** C8, as amended.  [clean_name] is not injective.  What it guarantees is
    that its result holds no record separator (neither a comma nor a
    newline), and that a name that holds none and has no surrounding white
    space is written unchanged. *)
Theorem clean_name_sanitises (s : string) :
  has_separator (clean_name s) = false
  /\ (has_separator s = false -> strip s = s -> clean_name s = s).
Proof.
  split; [apply clean_name_no_separator | apply clean_name_fixes_clean].
Qed.

(** ** Players: score, history, win ratio *)

Section PlayerFacts.
Context {num : Type} `{!Numeric num}.

Lemma init_fresh player_id aliases name c p c' :
  Player.init player_id aliases name c = (Val p, c') ->
  Player.wins p = 0 /\ Player.losses p = 0
  /\ Player.rating p = Rating.default /\ Player.states p = [].
Proof.
  unfold Player.init. intros Hinit.
  destruct name as [name|]; [|destruct aliases as [|first rest]];
    inversion Hinit; subst; simpl; auto.
Qed.

Lemma od_set_values (P : PlayerState.t num -> Prop) (k : num) v d :
  P v -> Forall P (od_values d) -> Forall P (od_values (od_set k v d)).
Proof.
  intros Hv. unfold od_values. induction d as [|[k' v'] r IH]; simpl.
  - intros _. by constructor.
  - intros Hd. apply Forall_cons in Hd as [Hv' Hr].
    destruct (decide (k' = k)); simpl; constructor; auto.
Qed.

Lemma lifetime_history p :
  lifetime p -> Forall snapshot_ok (od_values (Player.states p)).
Proof.
  induction 1 as [player_id aliases name c p c' Hinit
                 | timestamp rank p _ IH | p p' _ IH Hsame].
  - apply init_fresh in Hinit as (_ & _ & _ & ->). constructor.
  - simpl. apply od_set_values; [|exact IH]. reflexivity.
  - by rewrite Hsame.
Qed.

(** C9.  At every point of a player's life the score is
    [mu - 3*sigma], and so is the score of every snapshot of the
    history, and with it every entry of [scores]. *)
Theorem score_is_conservative (p : Player.t num) :
  lifetime p ->
  Player.score p = sub (Player.mu p) (mul (of_int 3) (Player.sigma p))
  /\ Forall snapshot_ok (od_values (Player.states p))
  /\ (forall x, x ∈ Player.scores p ->
        x = Player.score p
        \/ exists s, s ∈ od_values (Player.states p)
                     /\ x = sub (PlayerState.mu s)
                                (mul (of_int 3) (PlayerState.sigma s))).
Proof.
  intros Hlife. pose proof (lifetime_history p Hlife) as Hhist.
  split; [reflexivity|]. split; [exact Hhist|].
  intros x Hx. unfold Player.scores in Hx.
  apply elem_of_app in Hx as [Hx|Hx].
  - right. apply list_elem_of_fmap in Hx as (s & -> & Hs).
    exists s. split; [exact Hs|].
    rewrite Forall_forall in Hhist. exact (Hhist s Hs).
  - left. by apply list_elem_of_singleton in Hx.
Qed.

(** C10.  [win_ratio] divides by [total_games] without a guard: with at
    least one game it is [wins/(wins+losses)], with none the division
    raises [ZeroDivisionError]; a player just built is in the second
    case. *)
Theorem win_ratio_division (p : Player.t num) :
  (0 < Player.total_games p ->
     Player.win_ratio p
     = Val (true_div (Player.wins p) (Player.wins p + Player.losses p)))
  /\ (Player.total_games p = 0 ->
        Player.win_ratio p = Exc ZeroDivisionError)
  /\ (forall player_id aliases name c c',
        Player.init player_id aliases name c = (Val p, c') ->
        Player.win_ratio p = Exc ZeroDivisionError).
Proof.
  unfold Player.win_ratio. repeat split.
  - intros Hpos. destruct (Z.eqb_spec (Player.total_games p) 0); [lia|done].
  - by intros ->.
  - intros player_id aliases name c c' Hinit.
    apply init_fresh in Hinit as (Hw & Hl & _).
    unfold Player.total_games. by rewrite Hw, Hl.
Qed.
End PlayerFacts.

(** ** The registry *)

Ltac run_m :=
  unfold mbind, M_bind, mret, M_ret, bind, ret, gets, modify, lift, raise.

Section RegistryFacts.
Context {num : Type} `{!Numeric num}.

Import PlayerManager.

Implicit Types (w : World num) (p : Player.t num) (a s : string) (i pid : Z).

Lemma alias_exists_true w a i :
  alias_to_id w !! Some a = Some i -> alias_exists w a = true.
Proof. intros Hi. unfold alias_exists. apply bool_decide_eq_true. eauto. Qed.

Lemma alias_exists_false w a :
  alias_to_id w !! Some a = None -> alias_exists w a = false.
Proof.
  intros Hi. unfold alias_exists. apply bool_decide_eq_false.
  rewrite Hi. by intros [? ?].
Qed.

Lemma id_exists_true w i p :
  id_to_player w !! i = Some p -> id_exists w i = true.
Proof. intros Hi. unfold id_exists. apply bool_decide_eq_true. eauto. Qed.

Lemma id_exists_false w i :
  id_to_player w !! i = None -> id_exists w i = false.
Proof.
  intros Hi. unfold id_exists. apply bool_decide_eq_false.
  rewrite Hi. by intros [? ?].
Qed.


Lemma mbind_val {A B : Type} (m : M num A) (f : A -> M num B) w (x : A) w' :
  m w = (Val x, w') -> (m ≫= f) w = f x w'.
Proof. intros Hm. unfold mbind, M_bind, bind. by rewrite Hm. Qed.

Lemma mbind_exc {A B : Type} (m : M num A) (f : A -> M num B) w e w' :
  m w = (Exc e, w') -> (m ≫= f) w = (Exc e, w').
Proof. intros Hm. unfold mbind, M_bind, bind. by rewrite Hm. Qed.

(** An [int] that is no id of the registry: [PlayerNotFoundError], and
    nothing is written. *)
Lemma get_player_int_unknown w i test_mention create_missing :
  id_to_player w !! i = None ->
  get_player (AInt i) test_mention create_missing w
  = (Exc (PlayerNotFoundError (AInt i)), w).
Proof.
  intros Hi. unfold get_player. run_m. by rewrite (id_exists_false w i Hi).
Qed.

Lemma get_player_int_known w i p test_mention create_missing :
  id_to_player w !! i = Some p ->
  get_player (AInt i) test_mention create_missing w = (Val p, w).
Proof.
  intros Hi. unfold get_player. run_m. rewrite (id_exists_true w i p Hi).
  simpl. unfold id_to_player_get. by rewrite Hi.
Qed.

(** A mention of an id that is not in the registry: the dictionary
    lookup is not guarded, the exception is [KeyError]. *)
Lemma get_player_mention_unknown w s i create_missing :
  parse_mention_to_id s = Val (Some i) ->
  id_to_player w !! i = None ->
  get_player (AStr s) true create_missing w = (Exc KeyError, w).
Proof.
  intros Hs Hi. unfold get_player. run_m. rewrite Hs.
  unfold id_to_player_get. by rewrite Hi.
Qed.

(** C4, the failing input.  The mention of the unknown id 123 is
    resolved with [test_mention=True]: the exception is [KeyError], not
    [PlayerNotFoundError], whatever [create_missing] is; nothing is
    created. *)
Theorem get_player_mention_raises_KeyError (create_missing : bool) :
  get_player (AStr "<@123>") true create_missing (empty_world (num := num))
  = (Exc KeyError, empty_world)
  /\ get_player (AInt 123) true create_missing (empty_world (num := num))
     = (Exc (PlayerNotFoundError (AInt 123)), empty_world).
Proof.
  split.
  - by apply (get_player_mention_unknown _ _ 123).
  - by apply get_player_int_unknown.
Qed.

(** What [test_mention] does to a string that is no mention. *)
Lemma free_text_not_parsed w (name : string) (test_mention : bool) :
  (test_mention = true -> parse_mention_to_id name = Val None) ->
  (if test_mention then lift (parse_mention_to_id name) else mret None) w
  = (Val None, w).
Proof.
  intros Hfree. destruct test_mention; [|reflexivity].
  unfold lift. by rewrite Hfree.
Qed.

(** A free-text name the alias table does not know, with
    [create_missing]: the player made by [Player(name=name)] is stored
    under the id the counter hands out and returned. *)
Lemma get_player_creates w (name : string) (test_mention : bool) :
  (test_mention = true -> parse_mention_to_id name = Val None) ->
  alias_to_id w !! Some name = None ->
  exists p w',
    get_player (AStr name) test_mention true w = (Val p, w')
    /\ Player.aliases p = {[ name ]}
    /\ Player.claimed p = false
    /\ Player.total_games p = 0
    /\ Player.id p = Player_id_counter w
    /\ id_to_player w' = <[ Player.id p := p ]> (id_to_player w)
    /\ alias_to_id w' = <[ Some name := Player.id p ]> (alias_to_id w).
Proof.
  intros Hfree Hnone. eexists _, _. split.
  - unfold get_player.
    erewrite mbind_val by (by apply free_text_not_parsed). cbv beta iota.
    erewrite mbind_val by reflexivity.
    rewrite (alias_exists_false w name Hnone). simpl.
    unfold add_player, new_player. run_m. simpl. reflexivity.
  - simpl. repeat split; reflexivity.
Qed.




(** *** The two loops of [associate_aliases] *)

Lemma for_each_cons {A : Type} (body : A -> M num unit) x r w :
  for_each body (x :: r) w
  = match body x w with
    | (Val _, w') => for_each body r w'
    | (Exc e, w') => (Exc e, w')
    end.
Proof. reflexivity. Qed.

Lemma for_each_bind_all pid (aliases : list string) w :
  for_each (fun alias => modify (set_alias_to_id <[ Some alias := pid ]>))
    aliases w
  = (Val tt, set_alias_to_id (bind_all pid aliases) w).
Proof.
  revert w. induction aliases as [|a r IH]; intros w; simpl.
  - by destruct w.
  - run_m. simpl. fold (@modify num). rewrite IH. by destruct w.
Qed.

Lemma lookup_bind_all_notin pid (aliases : list string)
    (m : gmap (option string) Z) k :
  (forall a, a ∈ aliases -> k <> Some a) ->
  bind_all pid aliases m !! k = m !! k.
Proof.
  revert m. induction aliases as [|a r IH]; intros m Hk; simpl; [done|].
  unfold bind_all in *. simpl. rewrite IH.
  - apply lookup_insert_ne. intros <-. apply (Hk a); [|done].
    apply elem_of_cons. by left.
  - intros b Hb. apply Hk. apply elem_of_cons. by right.
Qed.

Lemma lookup_bind_all_in pid (aliases : list string)
    (m : gmap (option string) Z) a :
  a ∈ aliases -> bind_all pid aliases m !! Some a = Some pid.
Proof.
  revert m. induction aliases as [|b r IH]; intros m Ha.
  - by apply elem_of_nil in Ha.
  - unfold bind_all in *. simpl.
    destruct (decide (a ∈ r)) as [Hr|Hr]; [by apply IH|].
    apply elem_of_cons in Ha as [->|Ha]; [|done].
    fold (bind_all pid r (<[Some b:=pid]> m)).
    rewrite lookup_bind_all_notin; [apply lookup_insert_eq|].
    intros c Hc [= ->]. done.
Qed.

Lemma lookup_delete_all_notin (ids : list Z) (m : gmap Z (Player.t num)) i :
  i ∉ ids -> delete_all ids m !! i = m !! i.
Proof.
  revert m. induction ids as [|j r IH]; intros m Hi; [done|].
  apply not_elem_of_cons in Hi as [Hij Hr].
  unfold delete_all in *. simpl. rewrite IH by done.
  by apply lookup_delete_ne.
Qed.

Lemma lookup_delete_all_in (ids : list Z) (m : gmap Z (Player.t num)) i :
  i ∈ ids -> delete_all ids m !! i = None.
Proof.
  revert m. induction ids as [|j r IH]; intros m Hi.
  - by apply elem_of_nil in Hi.
  - unfold delete_all in *. simpl.
    destruct (decide (i ∈ r)) as [Hr|Hr]; [by apply IH|].
    apply elem_of_cons in Hi as [->|Hi]; [|done].
    fold (delete_all r (delete j m)).
    rewrite lookup_delete_all_notin by done. apply lookup_delete_eq.
Qed.

Lemma past_ids_ext w w' (l : list string) :
  (forall a, alias_to_id w' !! Some a = alias_to_id w !! Some a) ->
  past_ids w' l = past_ids w l.
Proof.
  intros Hsame. unfold past_ids. induction l as [|a r IH]; csimpl; [done|].
  by rewrite Hsame, IH.
Qed.

Lemma past_ids_found w (l : list string) :
  past_ids w (List.filter (alias_exists w) l) = past_ids w l.
Proof.
  unfold past_ids. induction l as [|a r IH]; csimpl; [done|].
  destruct (alias_to_id w !! Some a) as [i|] eqn:Ha.
  - rewrite (alias_exists_true w a i Ha). csimpl. by rewrite Ha, IH.
  - by rewrite (alias_exists_false w a Ha).
Qed.

Lemma found_known w (l : list string) :
  Forall (fun a => is_Some (alias_to_id w !! Some a))
    (List.filter (alias_exists w) l).
Proof.
  apply Forall_forall. intros a Ha.
  apply list_elem_of_In, filter_In in Ha as [_ Ha].
  unfold alias_exists in Ha. by apply bool_decide_eq_true in Ha.
Qed.

Lemma for_each_delete (found : list string) w :
  Forall (fun a => is_Some (alias_to_id w !! Some a)) found ->
  NoDup (past_ids w found) ->
  (forall i, i ∈ past_ids w found -> is_Some (id_to_player w !! i)) ->
  for_each (fun alias => past_id ← alias_to_id_get alias;
                         id_to_player_del past_id) found w
  = (Val tt, set_id_to_player (delete_all (past_ids w found)) w).
Proof.
  revert w. induction found as [|a r IH]; intros w Hknown Hnd Hin.
  - by destruct w.
  - apply Forall_cons in Hknown as [[i Hi] Hknown].
    assert (Hids : past_ids w (a :: r) = i :: past_ids w r).
    { unfold past_ids. csimpl. by rewrite Hi. }
    rewrite Hids in *. apply NoDup_cons in Hnd as [Hfresh Hnd].
    destruct (Hin i) as [p Hp]; [apply elem_of_cons; by left|].
    set (w1 := set_id_to_player (delete i) w).
    assert (Hbody : (past_id ← alias_to_id_get a; id_to_player_del past_id) w
                    = (Val tt, w1)).
    { run_m. unfold alias_to_id_get, id_to_player_del. by rewrite Hi, Hp. }
    assert (Hsame : past_ids w1 r = past_ids w r) by by apply past_ids_ext.
    rewrite for_each_cons, Hbody, (IH w1).
    + rewrite Hsame. by destruct w.
    + exact Hknown.
    + by rewrite Hsame.
    + rewrite Hsame. intros j Hj. subst w1. simpl.
      rewrite lookup_delete_ne; [apply Hin, elem_of_cons; by right|].
      intros ->. done.
Qed.


(** *** [associate_aliases], when it runs to its end *)

(** The claimant is stored or the batch is not empty; the known
    aliases of the batch have pairwise distinct owners, each of them
    stored or the claimant itself.  Then no deletion fails and the final
    registry is the one below. *)
Lemma associate_aliases_run w pid (aliases : list string) C :
  claimant w pid aliases = Some C ->
  NoDup (past_ids w aliases) ->
  (forall i, i ∈ past_ids w aliases ->
             i = pid \/ is_Some (id_to_player w !! i)) ->
  associate_aliases pid aliases w
  = (Val (List.filter (alias_exists w) aliases,
          List.filter (fun a => negb (alias_exists w a)) aliases),
     {| alias_to_id :=
          bind_all pid aliases
            (if id_exists w pid then alias_to_id w
             else <[ None := pid ]> (alias_to_id w));
        id_to_player :=
          delete_all (past_ids w aliases) (<[ pid := C ]> (id_to_player w));
        Player_id_counter := Player_id_counter w |}).
Proof.
  intros HC Hnd Hin.
  set (w1 := {| alias_to_id := if id_exists w pid then alias_to_id w
                               else <[ None := pid ]> (alias_to_id w);
                id_to_player := <[ pid := C ]> (id_to_player w);
                Player_id_counter := Player_id_counter w |}).
  set (found := List.filter (alias_exists w) aliases).
  assert (Hstep : (if negb (id_exists w pid)
                   then add_player None pid aliases;; mret tt
                   else player ← id_to_player_get pid;
                        modify (set_id_to_player
                                  <[ pid := Player.set_aliases
                                              (Player.aliases player
                                               ∪ list_to_set aliases) player ]>))
                    w = (Val tt, w1)).
  { unfold claimant in HC. subst w1.
    destruct (id_to_player w !! pid) as [p|] eqn:Hp.
    - rewrite (id_exists_true w pid p Hp). simpl.
      injection HC as <-. run_m. unfold id_to_player_get. rewrite Hp.
      by destruct w.
    - rewrite (id_exists_false w pid Hp). simpl.
      destruct aliases as [|first rest]; [discriminate|].
      simpl in HC. injection HC as <-.
      unfold add_player, new_player. run_m. simpl. by destruct w. }
  assert (Hsame : forall a, alias_to_id w1 !! Some a = alias_to_id w !! Some a).
  { intros a. subst w1. simpl. destruct (id_exists w pid); [done|].
    by apply lookup_insert_ne. }
  assert (Hids : past_ids w1 found = past_ids w aliases).
  { subst found. rewrite (past_ids_ext w w1) by done. apply past_ids_found. }
  assert (Hdel : for_each (fun alias => past_id ← alias_to_id_get alias;
                                        id_to_player_del past_id) found w1
                 = (Val tt, set_id_to_player
                              (delete_all (past_ids w aliases)) w1)).
  { rewrite <- Hids. apply for_each_delete.
    - eapply Forall_impl; [apply found_known|].
      intros a Ha. simpl in Ha. by rewrite Hsame.
    - by rewrite Hids.
    - rewrite Hids. intros i Hi. subst w1. simpl.
      destruct (decide (i = pid)) as [->|Hne].
      + rewrite lookup_insert_eq. eauto.
      + rewrite lookup_insert_ne by done.
        destruct (Hin i Hi) as [->|Hs]; done. }
  unfold associate_aliases.
  erewrite mbind_val by reflexivity.
  erewrite mbind_val by reflexivity.
  erewrite mbind_val by reflexivity.
  erewrite mbind_val by exact Hstep.
  erewrite mbind_val by exact Hdel.
  erewrite mbind_val by apply for_each_bind_all.
  reflexivity.
Qed.

(** C3, as amended.  A batch claims an alias owned by an unclaimed
    player all of whose aliases are in the batch (a player created for a
    free-text name has that name as its only alias).  When the known
    aliases of the batch have pairwise distinct owners, all stored and
    none of them the claimant, the call returns, the absorbed player is
    removed, the claimant holds every alias of the absorbed player, and
    each of these aliases now leads to the claimant. *)
Theorem associate_aliases_absorbs_unclaimed w pid (aliases : list string)
    a shell (P : Player.t num) :
  a ∈ aliases ->
  alias_to_id w !! Some a = Some shell ->
  id_to_player w !! shell = Some P ->
  Player.claimed P = false ->
  Player.aliases P ⊆ list_to_set aliases ->
  NoDup (past_ids w aliases) ->
  (forall i, i ∈ past_ids w aliases ->
             i <> pid /\ is_Some (id_to_player w !! i)) ->
  exists w' C,
    associate_aliases pid aliases w
    = (Val (List.filter (alias_exists w) aliases,
            List.filter (fun a => negb (alias_exists w a)) aliases), w')
    /\ id_to_player w' !! shell = None
    /\ id_to_player w' !! pid = Some C
    /\ Player.aliases P ⊆ Player.aliases C
    /\ (forall b, b ∈ Player.aliases P ->
          alias_to_id w' !! Some b = Some pid).
Proof.
  intros Ha Hshell HP _ Hsub Hnd Hin.
  assert (HC : exists C, claimant w pid aliases = Some C
                         /\ list_to_set aliases ⊆ Player.aliases C).
  { unfold claimant. destruct (id_to_player w !! pid) as [p|].
    - eexists. split; [reflexivity|]. simpl. set_solver.
    - destruct aliases as [|first rest]; [by apply elem_of_nil in Ha|].
      eexists. split; [reflexivity|]. simpl. set_solver. }
  destruct HC as (C & HC & HCsub).
  assert (Hmem : shell ∈ past_ids w aliases).
  { apply list_elem_of_omap. eauto. }
  eexists _, C. split.
  { apply associate_aliases_run; [exact HC|exact Hnd|].
    intros i Hi. right. by apply Hin. }
  simpl. repeat split.
  - by apply lookup_delete_all_in.
  - rewrite lookup_delete_all_notin; [apply lookup_insert_eq|].
    intros Hpid. by destruct (Hin pid Hpid) as [Hne _].
  - set_solver.
  - intros b Hb. apply lookup_bind_all_in.
    set_solver.
Qed.

(** *** Claims and the [alias] command *)



End RegistryFacts.

(** ** Leaderboard and comparison *)

Section CommandFacts.
Context {num : Type} `{!Numeric num}.

Implicit Types (w : World num) (p : Player.t num) (ranking : Ranking.t num).

Lemma slice_index_nonneg n i : 0 <= n -> 0 <= i -> slice_index n i = Z.min i n.
Proof.
  intros Hn Hi. unfold slice_index.
  destruct (Z.ltb_spec i 0); [lia|done].
Qed.


(** With three ranked players or more, [(1, 3)] gives the first three. *)
Lemma leaderboard_top_three p1 p2 p3 (rest : list (Player.t num)) :
  Kamlbot.leaderboard_rows (p1 :: p2 :: p3 :: rest) 1 3 = [p1; p2; p3].
Proof.
  unfold Kamlbot.leaderboard_rows, Ranking.getitem, py_slice. simpl (_ <=? _).
  cbv iota. rewrite !slice_index_nonneg by (simpl; lia).
  replace (Z.min (1 - 1) _) with 0 by (simpl length; lia).
  replace (Z.min 3 _) with 3 by (simpl length; lia).
  reflexivity.
Qed.


End CommandFacts.

(** ** The registry invariant *)

Section InvariantFacts.
Context {num : Type} `{!Numeric num}.

Implicit Types (w : World num) (p : Player.t num).

Lemma registry_inv_empty : registry_inv (empty_world (num := num)).
Proof. intros alias i Hi. simpl in Hi. by rewrite lookup_empty in Hi. Qed.

(** Creating a player for a free-text name keeps the invariant, as long as
    no alias already leads to the id the counter hands out. *)
Lemma get_player_creation_keeps_inv w (name : string) :
  registry_inv w ->
  alias_to_id w !! Some name = None ->
  (forall alias, alias_to_id w !! alias <> Some (Player_id_counter w)) ->
  registry_inv (PlayerManager.get_player (AStr name) false true w).2.
Proof.
  intros Hinv Hnone Hfresh.
  destruct (get_player_creates w name false) as
    (p & w' & -> & Hal & _ & _ & Hid & Hplayers & Haliases); [done|done|].
  simpl. intros alias i. rewrite Haliases, Hplayers, Hid.
  destruct (decide (Some name = alias)) as [<-|Hne].
  - rewrite lookup_insert_eq. intros [= <-]. rewrite lookup_insert_eq.
    exists p. split; [done|]. exists name. split; [done|].
    rewrite Hal. by apply elem_of_singleton.
  - rewrite lookup_insert_ne by done. intros Hi.
    rewrite lookup_insert_ne by (intros <-; by apply (Hfresh alias)).
    by apply Hinv.
Qed.

(** C1, the failing input.  The first claim of a user, on an empty
    registry (which satisfies the invariant): [associate_aliases] returns
    normally, and the alias table then holds the key [None], bound to the
    claimant, whose alias set is [{"x"}]; the invariant is lost. *)
Theorem associate_aliases_breaks_registry_inv :
  registry_inv (empty_world (num := num))
  /\ exists w' p,
       PlayerManager.associate_aliases 500 ["x"] empty_world
       = (Val ([], ["x"]), w')
       /\ alias_to_id w' !! None = Some 500
       /\ id_to_player w' !! 500 = Some p
       /\ Player.aliases p = list_to_set ["x"]
       /\ ~ registry_inv w'.
Proof.
  split; [apply registry_inv_empty|].
  eexists _, _. split; [reflexivity|]. simpl.
  split; [reflexivity|]. split; [reflexivity|]. split; [reflexivity|].
  intros Hinv. destruct (Hinv None 500) as (p & _ & a & Ha & _); [done|].
  discriminate Ha.
Qed.
End InvariantFacts.

(** * Runs on concrete inputs *)

Example world_x_lookup :
  alias_to_id world_x !! Some "x" = Some 0
  /\ id_to_player world_x !! 0 = Some player_x.
Proof. split; reflexivity. Qed.

Example world_foo_lookup :
  alias_to_id world_foo !! Some "foo" = Some 100
  /\ id_to_player world_foo !! 100 = Some player_foo
  /\ PlayerManager.is_claimed world_foo "foo" = true
  /\ PlayerManager.is_claimed world_foo "bar" = false.
Proof. repeat split; reflexivity. Qed.

(** ** C8 *)

(** C8, counterexample.  Two distinct names, both with a comma, are
    written as the same text: the sanitisation is not injective on names
    with separators. *)
Lemma clean_name_not_injective :
  ~ (forall s t : string,
       has_separator s = true -> has_separator t = true ->
       clean_name s = clean_name t -> s = t).
Proof.
  intros Hinj. by specialize (Hinj "a,b,c" "a_b,c" eq_refl eq_refl eq_refl).
Qed.

Lemma clean_name_sanitises_witness :
  has_separator (clean_name " a,b ") = false /\ clean_name "Alice" = "Alice".
Proof.
  split.
  - exact (proj1 (clean_name_sanitises " a,b ")).
  - apply (proj2 (clean_name_sanitises "Alice")); reflexivity.
Defined.

(** ** C9, C10 *)

Lemma score_is_conservative_witness :
  let p := Player.save_state 10 (Some 1) player_played in
  lifetime p
  /\ Player.score p = 1
  /\ Forall snapshot_ok (od_values (Player.states p)).
Proof.
  assert (Hlife : lifetime (Player.save_state 10 (Some 1) player_played)).
  { apply lifetime_save. apply (lifetime_write player_x); [|reflexivity].
    by apply (lifetime_init 0 [] (Some "x") 0 player_x 1). }
  split; [exact Hlife|].
  destruct (score_is_conservative _ Hlife) as (Hscore & Hhist & _).
  split; [reflexivity|exact Hhist].
Defined.

Lemma win_ratio_division_witness :
  0 < Player.total_games player_played
  /\ Player.win_ratio player_played = Val (true_div 3 4)
  /\ Player.total_games player_x = 0
  /\ Player.win_ratio player_x = Exc ZeroDivisionError.
Proof.
  split; [reflexivity|]. split.
  - exact (proj1 (win_ratio_division player_played) eq_refl).
  - split; [reflexivity|].
    exact (proj1 (proj2 (win_ratio_division player_x)) eq_refl).
Defined.

(** ** C5 *)


(** ** C2 *)



(** ** C3 *)

(** C3, counterexample.  The unclaimed player 0 has the aliases ["x"] and
    ["y"]; user 500 claims ["x"].  The call returns and removes player 0,
    but ["y"] is not among the claimant's aliases and still leads to the
    removed id 0. *)
Lemma absorb_loses_unlisted_alias :
  exists p c w',
    alias_to_id world_xy !! Some "x" = Some 0
    /\ id_to_player world_xy !! 0 = Some p
    /\ Player.claimed p = false
    /\ "y" ∈ Player.aliases p
    /\ PlayerManager.associate_aliases 500 ["x"] world_xy = (Val (["x"], []), w')
    /\ id_to_player w' !! 500 = Some c
    /\ ~ ("y" ∈ Player.aliases c)
    /\ alias_to_id w' !! Some "y" = Some 0
    /\ id_to_player w' !! 0 = None.
Proof.
  eexists _, _, _.
  split; [reflexivity|]. split; [reflexivity|]. split; [reflexivity|].
  split; [simpl; set_solver|]. split; [reflexivity|]. simpl.
  split; [reflexivity|]. split; [simpl; set_solver|].
  split; reflexivity.
Qed.

Lemma associate_aliases_absorbs_unclaimed_witness :
  exists w' c,
    PlayerManager.associate_aliases 500 ["x"; "z"] world_x
    = (Val (["x"], ["z"]), w')
    /\ id_to_player w' !! 0 = None
    /\ id_to_player w' !! 500 = Some c
    /\ Player.aliases player_x ⊆ Player.aliases c
    /\ alias_to_id w' !! Some "x" = Some 500.
Proof.
  destruct (associate_aliases_absorbs_unclaimed world_x 500 ["x"; "z"] "x" 0
              player_x)
    as (w' & c & Hrun & Hgone & Hc & Hsub & Hbound).
  - apply elem_of_cons. by left.
  - reflexivity.
  - reflexivity.
  - reflexivity.
  - simpl. set_solver.
  - apply NoDup_singleton.
  - intros i Hi. change (past_ids world_x ["x"; "z"]) with [0] in Hi.
    apply list_elem_of_singleton in Hi as ->.
    split; [lia|]. by exists player_x.
  - exists w', c. split; [exact Hrun|]. split; [exact Hgone|].
    split; [exact Hc|]. split; [exact Hsub|].
    apply Hbound. simpl. set_solver.
Defined.

(** ** C6 *)



(** ** C7 *)

